(** * pytest-bdd step registration: a shallow embedding of [pytest_bdd/steps.py]

    The development follows the layout of the Python module:
    the name normalizer it imports ([remove_prefix]), the host objects the
    module manipulates (function objects, code objects, modules, stack
    frames), the monad of stateful, raising computations, and then the
    functions of [steps.py] one by one. *)

From Stdlib Require Import ZArith Ascii String.
From stdpp Require Import gmap strings list fin_maps.


(** ** Name normalizer *)

Module Normalizer.

Definition chars := list ascii.

(** Characters removed by Python's [str.strip()] without argument. *)
Definition is_space (c : ascii) : bool :=
  let n := nat_of_ascii c in
  Nat.eqb n 32 || (Nat.leb 9 n && Nat.leb n 13).

Definition lower (c : ascii) : ascii :=
  let n := nat_of_ascii c in
  if Nat.leb 65 n && Nat.leb n 90 then ascii_of_nat (n + 32) else c.

Fixpoint lstrip (l : chars) : chars :=
  match l with
  | c :: r => if is_space c then lstrip r else l
  | [] => []
  end.

Fixpoint rstrip (l : chars) : chars :=
  match l with
  | [] => []
  | c :: r =>
      match rstrip r with
      | [] => if is_space c then [] else [c]
      | r' => c :: r'
      end
  end.

Definition strip (l : chars) : chars := rstrip (lstrip l).

Definition keywords : list chars :=
  map list_ascii_of_string ["given"; "when"; "then"; "and"; "but"].

(** [match_ci k l] is what follows [k] in [l] when [l] starts with [k]
    up to letter case. *)
Fixpoint match_ci (k l : chars) : option chars :=
  match k, l with
  | [], _ => Some l
  | a :: k', c :: l' =>
      if Ascii.eqb a (lower c) then match_ci k' l' else None
  | _ :: _, [] => None
  end.

(** A keyword token is a keyword followed by whitespace. *)
Definition keyword_token (k l : chars) : option chars :=
  match match_ci k l with
  | Some (c :: rest) => if is_space c then Some (c :: rest) else None
  | _ => None
  end.

Fixpoint leading_keyword (ks : list chars) (l : chars)
  : option (chars * chars) :=
  match ks with
  | [] => None
  | k :: ks' =>
      match keyword_token k l with
      | Some rest => Some (k, rest)
      | None => leading_keyword ks' l
      end
  end.

(** Modelled from the spec: [pytest_bdd.feature.remove_prefix], which
    [steps.py] imports and whose source is not part of the module under
    study.  Section 4.1: remove exactly one leading recognized keyword
    token (case-insensitive "given", "when", "then", "and", "but")
    followed by whitespace, if present; otherwise return the phrase
    unchanged (trimmed). *)
Definition normalize (p : chars) : chars :=
  match leading_keyword keywords (lstrip p) with
  | Some (_, rest) => strip rest
  | None => strip p
  end.

(** The phrase has a recognized leading keyword. *)
Definition has_keyword (p : chars) : Prop :=
  is_Some (leading_keyword keywords (lstrip p)).

Definition blank (l : chars) : Prop := Forall (fun c => is_space c = true) l.

(** The phrase does not begin with whitespace. *)
Definition no_lead (l : chars) : Prop :=
  match l with
  | c :: _ => is_space c = false
  | [] => True
  end.

End Normalizer.

(** Modelled from the spec: the string-level entry point of the name
    normalizer, [remove_prefix], as [steps.py] calls it. *)
Definition remove_prefix (line : string) : string :=
  string_of_list_ascii (Normalizer.normalize (list_ascii_of_string line)).

(** ** Host objects

    Python values as far as [steps.py] handles them.  Function objects
    live in a store and are named by their address, so that two names for
    one object see each other's updates. *)

Abbreviation ref := nat (only parsing).

Inductive exn :=
| StepError (msg : string)
| ValueError (msg : string)
| AttributeError (msg : string)
| TypeError (msg : string)
| LookupError (msg : string).

#[warnings="-register-all"]
Inductive value :=
| VNone
| VInt (n : Z)
| VStr (s : string)
| VTuple (vs : list value)
| VFunc (f : ref)
| VFixtureMarker
| VObj (n : nat)
| VRequest (getfuncargvalue : string -> exn + value).

(** Code objects, with the fields of Python 2's [types.CodeType]. *)
Record code := mkCode {
  co_argcount : Z;
  co_nlocals : Z;
  co_stacksize : Z;
  co_flags : Z;
  co_code : string;
  co_consts : list value;
  co_names : list value;
  co_varnames : list value;
  co_filename : string;
  co_name : string;
  co_firstlineno : Z;
  co_lnotab : string;
  co_freevars : list value;
  co_cellvars : list value
}.

(** What a function does when called.  Functions of the test author are
    opaque; the four lambdas of [steps.py] are closures over the variables
    they mention:
    - line 113, [lambda request: request.getfuncargvalue(func.func_name)];
    - line 119, [lambda: step_func];
    - line 61, outer, [lambda: lambda request: ...];
    - line 61, inner, [lambda request: request.getfuncargvalue(fixture)]. *)
Inductive body :=
| Authored (n : nat)
| LookupByFuncName (func : ref)
| ReturnStepFunc (step_func : ref)
| AliasProvider (fixture : string)
| LookupFixture (fixture : string).

Inductive lambda_site := L61_outer | L61_inner | L113 | L119.

(** A function object: [func_name] is [__name__], [func_dict] holds the
    attributes set on the function, such as the fixture marker. *)
Record funobj := mkFun {
  func_name : string;
  func_code : code;
  func_dict : gmap string value;
  func_body : body
}.

Definition set_func_name (n : string) (o : funobj) : funobj :=
  mkFun n (func_code o) (func_dict o) (func_body o).

Definition set_func_code (c : code) (o : funobj) : funobj :=
  mkFun (func_name o) c (func_dict o) (func_body o).

Definition set_func_attr (a : string) (v : value) (o : funobj) : funobj :=
  mkFun (func_name o) (func_code o) (<[a := v]> (func_dict o)) (func_body o).

(** A stack frame, as far as [inspect.getmodule] looks at it: the name of
    the module whose code it runs, if any. *)
Record frame := mkFrame { f_module : option string }.

(** The interpreter state: the function store, [sys.modules] (each module
    is its attribute table) and the trace of [pytest.fixture] calls. *)
Record state := mkState {
  funcs : list funobj;
  modules : gmap string (gmap string value);
  fixture_log : list ref
}.

(** Modelled from the spec: the step kinds imported from
    [pytest_bdd.types], an enumeration {GIVEN, WHEN, THEN}. *)
Inductive StepType := GIVEN | WHEN | THEN.

Global Instance StepType_eq_dec : EqDecision StepType.
Proof. solve_decision. Defined.

(** ** Computations that update the state and may raise *)

Definition M (A : Type) : Type := state -> (exn + A) * state.

Global Instance M_ret : MRet M := fun A a s => (inr a, s).

Global Instance M_bind : MBind M := fun A B k m s =>
  match m s with
  | (inr a, s') => k a s'
  | (inl e, s') => (inl e, s')
  end.

Definition raise {A} (e : exn) : M A := fun s => (inl e, s).

Definition lift {A} (r : exn + A) : M A := fun s => (r, s).

Definition gets {A} (f : state -> A) : M A := fun s => (inr (f s), s).

Definition modify (f : state -> state) : M unit := fun s => (inr tt, f s).

Definition returns {A} (m : M A) (s : state) (a : A) (s' : state) : Prop :=
  m s = (inr a, s').

Definition raises {A} (m : M A) (s : state) (e : exn) (s' : state) : Prop :=
  m s = (inl e, s').

(** ** Store primitives *)

Definition get_func (f : ref) : M funobj := fun s =>
  match funcs s !! f with
  | Some o => (inr o, s)
  | None => (inl (AttributeError "not a function object"), s)
  end.

Definition update_func (f : ref) (g : funobj -> funobj) : M unit :=
  o ← get_func f;
  modify (fun s => mkState (<[f := g o]> (funcs s)) (modules s) (fixture_log s)).

Definition alloc (o : funobj) : M ref := fun s =>
  (inr (length (funcs s)),
   mkState (funcs s ++ [o]) (modules s) (fixture_log s)).

(** [getattr(module, attr)] where [module] is a module or [None]. *)
Definition module_getattr (module : option string) (attr : string) : M value :=
  match module with
  | None => raise (AttributeError "'NoneType' object has no attribute")
  | Some m => fun s =>
      match modules s !! m ≫= (fun d => d !! attr) with
      | Some v => (inr v, s)
      | None => (inl (AttributeError "module has no attribute"), s)
      end
  end.

(** [setattr(module, name, v)]. *)
Definition module_setattr (module : option string) (name : string) (v : value)
  : M unit :=
  match module with
  | None => raise (AttributeError "'NoneType' object has no attribute")
  | Some m => fun s =>
      match modules s !! m with
      | Some d =>
          (inr tt,
           mkState (funcs s) (<[m := <[name := v]> d]> (modules s)) (fixture_log s))
      | None => (inl (AttributeError "no such module"), s)
      end
  end.

(** ** The host: pytest and the interpreter *)

(** [hasattr(func, attr)]. *)
Definition hasattr (func : ref) (attr : string) : M bool :=
  gets (fun s =>
    match funcs s !! func with
    | Some o => bool_decide (is_Some (func_dict o !! attr))
    | None => false
    end).

(** [pytest.fixture(func)] used as a plain decorator: marks the function
    as a provider and returns that same function. *)
Definition pytest_fixture (func : ref) : M ref :=
  update_func func (set_func_attr "_pytestfixturefunction" VFixtureMarker);;
  modify (fun s => mkState (funcs s) (modules s) (fixture_log s ++ [func]));;
  mret func.

(** [sys._getframe(depth)] on the stack [stk], innermost frame first. *)
Definition sys_getframe (depth : Z) (stk : list frame) : M frame :=
  match stk !! Z.to_nat depth with
  | Some fr => mret fr
  | None => raise (ValueError "call stack is not deep enough")
  end.

(** [inspect.getmodule(frame)]: the module in [sys.modules], or [None]. *)
Definition inspect_getmodule (fr : frame) : M (option string) :=
  gets (fun s =>
    m ← f_module fr;
    if decide (is_Some (modules s !! m)) then Some m else None).

(** [getattr(code, arg)] for the fourteen constructor fields. *)
Definition code_getattr (co : code) (arg : string) : exn + value :=
  if String.eqb arg "co_argcount" then inr (VInt (co_argcount co))
  else if String.eqb arg "co_nlocals" then inr (VInt (co_nlocals co))
  else if String.eqb arg "co_stacksize" then inr (VInt (co_stacksize co))
  else if String.eqb arg "co_flags" then inr (VInt (co_flags co))
  else if String.eqb arg "co_code" then inr (VStr (co_code co))
  else if String.eqb arg "co_consts" then inr (VTuple (co_consts co))
  else if String.eqb arg "co_names" then inr (VTuple (co_names co))
  else if String.eqb arg "co_varnames" then inr (VTuple (co_varnames co))
  else if String.eqb arg "co_filename" then inr (VStr (co_filename co))
  else if String.eqb arg "co_name" then inr (VStr (co_name co))
  else if String.eqb arg "co_firstlineno" then inr (VInt (co_firstlineno co))
  else if String.eqb arg "co_lnotab" then inr (VStr (co_lnotab co))
  else if String.eqb arg "co_freevars" then inr (VTuple (co_freevars co))
  else if String.eqb arg "co_cellvars" then inr (VTuple (co_cellvars co))
  else inl (AttributeError "'code' object has no attribute").

(** [CodeType] applied to the list of positional arguments: the constructor
    of Python 2, whose last two arguments are optional. *)
Definition CodeType (args : list value) : exn + code :=
  match args with
  | [VInt argcount; VInt nlocals; VInt stacksize; VInt flags; VStr codestring;
     VTuple constants; VTuple names; VTuple varnames; VStr filename;
     VStr name; VInt firstlineno; VStr lnotab; VTuple freevars;
     VTuple cellvars] =>
      inr (mkCode argcount nlocals stacksize flags codestring constants names
             varnames filename name firstlineno lnotab freevars cellvars)
  | [VInt argcount; VInt nlocals; VInt stacksize; VInt flags; VStr codestring;
     VTuple constants; VTuple names; VTuple varnames; VStr filename;
     VStr name; VInt firstlineno; VStr lnotab; VTuple freevars] =>
      inr (mkCode argcount nlocals stacksize flags codestring constants names
             varnames filename name firstlineno lnotab freevars [])
  | [VInt argcount; VInt nlocals; VInt stacksize; VInt flags; VStr codestring;
     VTuple constants; VTuple names; VTuple varnames; VStr filename;
     VStr name; VInt firstlineno; VStr lnotab] =>
      inr (mkCode argcount nlocals stacksize flags codestring constants names
             varnames filename name firstlineno lnotab [] [])
  | _ => inl (TypeError "code() argument mismatch")
  end.

(** ** [steps.py] *)

Definition steps_frame : frame := mkFrame (Some "pytest_bdd.steps").

Definition argnames : list string :=
  ["co_argcount"; "co_nlocals"; "co_stacksize"; "co_flags"; "co_code";
   "co_consts"; "co_names"; "co_varnames"; "co_filename"; "co_name";
   "co_firstlineno"; "co_lnotab"; "co_freevars"; "co_cellvars"].

(** The loop of [contribute_to_module], started with the arguments
    collected so far. *)
Fixpoint collect_args (module : option string) (func : ref)
    (names : list string) (args : list value) : M (list value) :=
  match names with
  | [] => mret args
  | arg :: names' =>
      if String.eqb arg "co_filename" then
        file ← module_getattr module "__file__";
        collect_args module func names' (args ++ [file])
      else
        o ← get_func func;
        v ← lift (code_getattr (func_code o) arg);
        collect_args module func names' (args ++ [v])
  end.

Definition contribute_to_module (module : option string) (name : string)
    (func : ref) : M unit :=
  args ← collect_args module func argnames [];
  co ← lift (CodeType args);
  update_func func (set_func_code co);;
  module_setattr module name (VFunc func).

(** The caller passes the stack as it is at the call; the callee's own
    frame goes on top of it. *)
Definition get_caller_module (depth : Z) (caller : list frame)
  : M (option string) :=
  frame ← sys_getframe depth (steps_frame :: caller);
  inspect_getmodule frame.

Definition _not_a_fixture_decorator (func : ref) : M ref :=
  raise (StepError "Cannot be used as a decorator when the fixture is specified").

(** What [given], [when] and [then] return: either the guard above or the
    closure [decorator] of [_step_decorator] with its two captured
    variables. *)
Inductive decorator_value :=
| NotAFixtureDecorator
| StepDecorator (step_type : StepType) (step_name : string).

Section Steps.

(** The code objects the compiler produced for the lambdas of
    [steps.py], and the behaviour of the test author's functions. *)
Variable compiled : lambda_site -> code.
Variable authored : nat -> list value -> M value.

Definition new_lambda (site : lambda_site) (b : body) : M ref :=
  alloc (mkFun "<lambda>" (compiled site) ∅ b).

(** [decorator(func)] inside [_step_decorator(step_type, step_name)],
    where [step_name] is already normalized. *)
Definition decorator (step_type : StepType) (step_name : string)
    (caller : list frame) (func : ref) : M ref :=
  let stk := steps_frame :: caller in
  '(func, step_func) ←
    (if decide (step_type = GIVEN) then
       marked ← hasattr func "_pytestfixturefunction";
       func ← (if negb marked then pytest_fixture func else mret func);
       step_func ← new_lambda L113 (LookupByFuncName func);
       mret (func, step_func)
     else mret (func, func));
  update_func step_func (set_func_name step_name);;
  module ← get_caller_module 2 stk;
  provider ← new_lambda L119 (ReturnStepFunc step_func);
  provider ← pytest_fixture provider;
  contribute_to_module module step_name provider;;
  mret func.

Definition _step_decorator (step_type : StepType) (step_name : string)
  : decorator_value :=
  StepDecorator step_type (remove_prefix step_name).

Definition given (name : string) (fixture : option string)
    (caller : list frame) : M decorator_value :=
  let stk := steps_frame :: caller in
  let name := remove_prefix name in
  match fixture with
  | Some fixture =>
      module ← get_caller_module 2 stk;
      func ← new_lambda L61_outer (AliasProvider fixture);
      provider ← pytest_fixture func;
      contribute_to_module module name provider;;
      mret NotAFixtureDecorator
  | None => mret (_step_decorator GIVEN name)
  end.

Definition when (name : string) : M decorator_value :=
  mret (_step_decorator WHEN name).

Definition then_ (name : string) : M decorator_value :=
  mret (_step_decorator THEN name).

(** Applying a value returned by the entry points to a function, from
    code whose stack is [caller]. *)
Definition apply_decorator (d : decorator_value) (caller : list frame)
    (func : ref) : M ref :=
  match d with
  | NotAFixtureDecorator => _not_a_fixture_decorator func
  | StepDecorator step_type step_name =>
      decorator step_type step_name caller func
  end.


End Steps.

(** ** Vocabulary of the statements *)

(** The function carries the provider marker. *)
Definition marked (o : funobj) : Prop :=
  is_Some (func_dict o !! "_pytestfixturefunction").

(** The code object [contribute_to_module] builds from [co]. *)
Definition relocated (file : string) (co : code) : code :=
  mkCode (co_argcount co) (co_nlocals co) (co_stacksize co) (co_flags co)
    (co_code co) (co_consts co) (co_names co) (co_varnames co) file
    (co_name co) (co_firstlineno co) (co_lnotab co) (co_freevars co)
    (co_cellvars co).

(** The code registering from [caller] contributes to module [m], whose
    attribute table is [d] and whose [__file__] is [file]. *)
Definition contributes_to (s : state) (caller : list frame) (m : string)
    (d : gmap string value) (file : string) : Prop :=
  (∃ fr, caller !! 0%nat = Some fr ∧ f_module fr = Some m) ∧
  modules s !! m = Some d ∧ d !! "__file__" = Some (VStr file).

Definition module_attr (s : state) (m name : string) : option value :=
  modules s !! m ≫= (fun d => d !! name).

Section Shapes.
Variable compiled : lambda_site -> code.

(** A lambda of [steps.py] once marked by [pytest.fixture] and
    contributed to the module in [file]. *)
Definition provider_obj (site : lambda_site) (file : string) (b : body)
  : funobj :=
  mkFun "<lambda>" (relocated file (compiled site))
    (<["_pytestfixturefunction" := VFixtureMarker]> ∅) b.

(** The lambda of line 113 once renamed. *)
Definition trampoline_obj (step_name : string) (func : ref) : funobj :=
  mkFun step_name (compiled L113) ∅ (LookupByFuncName func).

(** The state after a GIVEN registration, from the function store
    [fs] in which [func] is already a provider. *)
Definition given_state (fs : list funobj) (m : string)
    (d : gmap string value) (file name : string) (func : ref)
    (log : list ref) (s : state) : state :=
  mkState
    ((fs ++ [trampoline_obj name func])
       ++ [provider_obj L119 file (ReturnStepFunc (length fs))])
    (<[m := <[name := VFunc (S (length fs))]> d]> (modules s))
    (log ++ [S (length fs)]).
End Shapes.

(** How many times [pytest.fixture] has been applied to [func]. *)
Definition promotions (s : state) (func : ref) : nat :=
  count_occ Nat.eq_dec (fixture_log s) func.

Global Instance marked_dec o : Decision (marked o).
Proof. unfold marked. apply _. Defined.

(** What a registration of kind [t] under [name] makes of the decorated
    function object. *)
Definition registered_obj (t : StepType) (name : string) (o : funobj) : funobj :=
  match t with
  | GIVEN =>
      if decide (marked o) then o
      else set_func_attr "_pytestfixturefunction" VFixtureMarker o
  | WHEN | THEN => set_func_name name o
  end.

(** The attribute [name] of module [m] holds [provider], the provider that
    a registration of kind [t] builds from [func]: a marked zero-argument
    lambda returning [step_func], which is [func] itself for WHEN and THEN
    and the by-name trampoline of [func] for GIVEN. *)
Definition installed_as (s : state) (m name : string) (t : StepType)
    (func provider step_func : ref) : Prop :=
  ∃ po,
    module_attr s m name = Some (VFunc provider) ∧
    funcs s !! provider = Some po ∧ marked po ∧
    func_body po = ReturnStepFunc step_func ∧
    match t with
    | GIVEN =>
        ∃ so, funcs s !! step_func = Some so ∧
              func_body so = LookupByFuncName func ∧ func_name so = name
    | WHEN | THEN => step_func = func
    end.


Section Stacking.
Variable compiled : lambda_site -> code.

(** Decorators stacked on one definition, outermost first: the one
    nearest to the function is applied first. *)
Fixpoint stacked (ds : list decorator_value) (caller : list frame)
    (func : ref) : M ref :=
  match ds with
  | [] => mret func
  | d :: ds' =>
      f ← stacked ds' caller func;
      apply_decorator compiled d caller f
  end.

Definition given_decorators (names : list string) : list decorator_value :=
  map (_step_decorator GIVEN) names.
End Stacking.

(** ** A small session, to run the statements on *)

Definition sample_code : code :=
  mkCode 1 1 2 67 "t" [VNone] [VStr "create_test_article"] [VStr "author"]
    "/tests/test_article.py" "article" 6 "" [] [].

Definition sample_compiled (site : lambda_site) : code :=
  match site with
  | L61_outer =>
      mkCode 0 0 1 19 "" [VNone] [] [] "/pytest_bdd/steps.py" "<lambda>" 61 ""
        [VStr "fixture"] []
  | L61_inner =>
      mkCode 1 1 2 19 "" [VNone] [VStr "getfuncargvalue"] [VStr "request"]
        "/pytest_bdd/steps.py" "<lambda>" 61 "" [VStr "fixture"] []
  | L113 =>
      mkCode 1 1 2 19 "" [VNone] [VStr "getfuncargvalue"; VStr "func_name"]
        [VStr "request"] "/pytest_bdd/steps.py" "<lambda>" 113 ""
        [VStr "func"] []
  | L119 =>
      mkCode 0 0 1 19 "" [VNone] [] [] "/pytest_bdd/steps.py" "<lambda>" 119 ""
        [VStr "step_func"] []
  end.


Definition sample_dict : gmap string value :=
  <["__file__" := VStr "/tests/test_article.py"]> ∅.

Definition sample_article : funobj := mkFun "article" sample_code ∅ (Authored 0).

Definition sample_state : state :=
  mkState
    [sample_article;
     mkFun "go_to_the_article_page" sample_code ∅ (Authored 1)]
    (<["test_article" := sample_dict]> ∅) [].

Definition sample_caller : list frame := [mkFrame (Some "test_article")].


(** ** More of the sample session *)




Definition sample_orphan_caller : list frame := [mkFrame None].

(** The computation raises nothing but the interpreter's own errors:
    whatever it raises is not a [StepError]. *)
Definition no_step_error {A} (m : M A) : Prop :=
  ∀ s e s', m s = (inl e, s') → ∀ msg, e ≠ StepError msg.

(** * Properties *)

(** ** The name normalizer *)

Example remove_prefix_given :
  remove_prefix "Given I have an article" = "I have an article".
Proof. reflexivity. Qed.

Example remove_prefix_plain :
  remove_prefix "  there is an article " = "there is an article".
Proof. reflexivity. Qed.

Example remove_prefix_twice :
  remove_prefix "given when x" = "when x" /\ remove_prefix "when x" = "x".
Proof. split; reflexivity. Qed.

Module NormalizerFacts.
Import Normalizer.

Lemma blank_nil : blank [].
Proof. constructor. Qed.

Lemma blank_cons c w : is_space c = true → blank w → blank (c :: w).
Proof. by constructor. Qed.

Lemma blank_app w1 w2 : blank w1 → blank w2 → blank (w1 ++ w2).
Proof. apply Forall_app_2. Qed.

Local Hint Resolve blank_nil blank_cons blank_app : core.

Lemma lstrip_split l : ∃ w, l = w ++ lstrip l ∧ blank w.
Proof.
  induction l as [|c r [w [Hw Hb]]]; simpl.
  - exists []. auto.
  - destruct (is_space c) eqn:Hc.
    + exists (c :: w). split; [simpl; congruence | auto].
    + exists []. auto.
Qed.


Lemma rstrip_split l : ∃ w, l = rstrip l ++ w ∧ blank w.
Proof.
  induction l as [|c r [w [Hw Hb]]]; simpl.
  - exists []. auto.
  - destruct (rstrip r) as [|c' r'] eqn:Hr.
    + simpl in Hw. subst w. destruct (is_space c) eqn:Hc.
      * exists (c :: r). auto.
      * exists r. auto.
    + exists w. split; [simpl in *; congruence | done].
Qed.

Lemma lstrip_no_lead l : no_lead (lstrip l).
Proof.
  induction l as [|c r IH]; simpl; [done |].
  destruct (is_space c) eqn:Hc; [done | by simpl].
Qed.

Lemma lstrip_fix l : no_lead l → lstrip l = l.
Proof. destruct l as [|c r]; simpl; [done |]. by intros ->. Qed.

Lemma rstrip_no_lead l : no_lead l → no_lead (rstrip l).
Proof.
  destruct l as [|c r]; simpl; [done |]. intros Hc.
  destruct (rstrip r); [by rewrite Hc | done].
Qed.

Lemma rstrip_idem l : rstrip (rstrip l) = rstrip l.
Proof.
  induction l as [|c r IH]; simpl; [done |].
  destruct (rstrip r) as [|c' r'] eqn:Hr.
  - destruct (is_space c) eqn:Hc; simpl; [done | by rewrite Hc].
  - change (rstrip (c :: c' :: r')) with
      (match rstrip (c' :: r') with
       | [] => if is_space c then [] else [c]
       | x => c :: x
       end).
    by rewrite IH.
Qed.

Lemma strip_no_lead l : no_lead (strip l).
Proof. apply rstrip_no_lead, lstrip_no_lead. Qed.

Lemma strip_idem l : strip (strip l) = strip l.
Proof.
  unfold strip at 1. rewrite (lstrip_fix (strip l)) by apply strip_no_lead.
  apply rstrip_idem.
Qed.

Lemma strip_split l : ∃ w1 w2, l = w1 ++ strip l ++ w2 ∧ blank w1 ∧ blank w2.
Proof.
  destruct (lstrip_split l) as [w1 [H1 B1]].
  destruct (rstrip_split (lstrip l)) as [w2 [H2 B2]].
  exists w1, w2. unfold strip. by rewrite <- H2.
Qed.

Lemma match_ci_app k l r w :
  match_ci k l = Some r → match_ci k (l ++ w) = Some (r ++ w).
Proof.
  revert l. induction k as [|a k IH]; intros l; simpl.
  - by intros [= ->].
  - destruct l as [|c l]; simpl; [done |].
    destruct (Ascii.eqb a (lower c)); [apply IH | done].
Qed.

Lemma match_ci_split k l r :
  match_ci k l = Some r → ∃ kw, l = kw ++ r ∧ map lower kw = k.
Proof.
  revert l. induction k as [|a k IH]; intros l; simpl.
  - intros [= ->]. by exists [].
  - destruct l as [|c l]; [done |].
    destruct (Ascii.eqb a (lower c)) eqn:Hc; [| done].
    intros [kw [-> <-]]%IH. apply Ascii.eqb_eq in Hc. subst a.
    by exists (c :: kw).
Qed.

Lemma keyword_token_app k l r w :
  keyword_token k l = Some r → keyword_token k (l ++ w) = Some (r ++ w).
Proof.
  unfold keyword_token. destruct (match_ci k l) as [[|c rest]|] eqn:Hm; try done.
  destruct (is_space c) eqn:Hc; [| done]. intros [= <-].
  rewrite (match_ci_app _ _ _ w Hm). simpl. by rewrite Hc.
Qed.

Lemma keyword_token_split k l r :
  keyword_token k l = Some r →
  ∃ kw c r', l = kw ++ r ∧ map lower kw = k ∧ r = c :: r' ∧ is_space c = true.
Proof.
  unfold keyword_token. destruct (match_ci k l) as [[|c rest]|] eqn:Hm; try done.
  destruct (is_space c) eqn:Hc; [| done]. intros [= <-].
  destruct (match_ci_split _ _ _ Hm) as [kw [? ?]]. by exists kw, c, rest.
Qed.

Lemma leading_keyword_app ks l w :
  is_Some (leading_keyword ks l) → is_Some (leading_keyword ks (l ++ w)).
Proof.
  induction ks as [|k0 ks IH]; simpl; [done |].
  destruct (keyword_token k0 l) as [r0|] eqn:Hk.
  - intros _. by rewrite (keyword_token_app _ _ _ w Hk).
  - intros H%IH. by destruct (keyword_token k0 (l ++ w)).
Qed.

Lemma leading_keyword_rstrip ks l :
  leading_keyword ks l = None → leading_keyword ks (rstrip l) = None.
Proof.
  intros Hl. destruct (rstrip_split l) as [w [Hw _]].
  destruct (leading_keyword ks (rstrip l)) as [kr|] eqn:Hr; [| done].
  apply mk_is_Some, (leading_keyword_app _ _ w) in Hr.
  rewrite <- Hw, Hl in Hr. by destruct Hr.
Qed.

Lemma leading_keyword_split ks l k r :
  leading_keyword ks l = Some (k, r) →
  k ∈ ks ∧
  ∃ kw c r', l = kw ++ r ∧ map lower kw = k ∧ r = c :: r' ∧ is_space c = true.
Proof.
  induction ks as [|k0 ks IH]; simpl; [done |].
  destruct (keyword_token k0 l) as [r0|] eqn:Hk.
  - intros [= <- <-]. split; [apply list_elem_of_here |].
    by apply keyword_token_split.
  - intros [Hin Hsp]%IH. split; [by apply list_elem_of_further | done].
Qed.


Lemma normalize_plain p : ¬ has_keyword p → normalize p = strip p.
Proof.
  unfold has_keyword, normalize.
  destruct (leading_keyword keywords (lstrip p)) as [[k rest]|]; [| done].
  intros []. eauto.
Qed.

(** A phrase without keyword is a fixed point after one pass. *)
Lemma normalize_plain_idem p :
  ¬ has_keyword p → normalize (normalize p) = normalize p.
Proof.
  intros Hp. rewrite (normalize_plain p Hp).
  rewrite normalize_plain; [apply strip_idem |].
  unfold has_keyword in *. rewrite (lstrip_fix (strip p)) by apply strip_no_lead.
  unfold strip. rewrite leading_keyword_rstrip; [by intros [] |].
  by apply eq_None_not_Some.
Qed.


Lemma lstrip_blank ws l : blank ws → lstrip (ws ++ l) = lstrip l.
Proof. induction 1 as [|c ws Hc _ IH]; simpl; [done | by rewrite Hc]. Qed.

Lemma lower_space c : is_space c = true → lower c = c.
Proof.
  destruct c as [[] [] [] [] [] [] [] []]; vm_compute; congruence.
Qed.

Lemma keyword_no_lead kw : map lower kw ∈ keywords → no_lead kw.
Proof.
  destruct kw as [|a kw]; [done |]. simpl.
  destruct (is_space a) eqn:Ha; [| done].
  rewrite (lower_space a Ha). intros Hin.
  repeat (apply elem_of_cons in Hin as [Hin | Hin];
          [injection Hin as -> _; vm_compute in Ha; discriminate Ha |]).
  by apply elem_of_nil in Hin.
Qed.

Lemma match_ci_prefix kw r : match_ci (map lower kw) (kw ++ r) = Some r.
Proof.
  induction kw as [|a kw IH]; simpl; [done |]. by rewrite Ascii.eqb_refl.
Qed.

Lemma leading_keyword_elem ks k l r :
  k ∈ ks → keyword_token k l = Some r → is_Some (leading_keyword ks l).
Proof.
  induction 1 as [k ks | k k0 ks _ IH]; simpl; intros Hk.
  - rewrite Hk. eauto.
  - destruct (keyword_token k0 l); eauto.
Qed.

(** [has_keyword] in the words of the specification: optional
    whitespace, a keyword in any letter case, then whitespace. *)
Lemma has_keyword_iff p :
  has_keyword p ↔
  ∃ ws kw c rest,
    p = ws ++ kw ++ c :: rest ∧ blank ws ∧ map lower kw ∈ keywords ∧
    is_space c = true.
Proof.
  split.
  - intros [[k r] Hk].
    destruct (leading_keyword_split _ _ _ _ Hk)
      as [Hin (kw & c & r' & Hl & Hkw & -> & Hc)].
    destruct (lstrip_split p) as [ws [Hp Hb]].
    exists ws, kw, c, r'. rewrite Hkw. repeat split; try done. congruence.
  - intros (ws & kw & c & rest & -> & Hb & Hin & Hc). unfold has_keyword.
    rewrite lstrip_blank by done.
    rewrite lstrip_fix.
    + eapply leading_keyword_elem; [exact Hin |]. unfold keyword_token.
      rewrite match_ci_prefix. by rewrite Hc.
    + pose proof (keyword_no_lead kw Hin) as Hk.
      destruct kw as [|a kw]; [| done].
      simpl in Hin. exfalso.
      repeat (apply elem_of_cons in Hin as [Hin | Hin]; [discriminate Hin |]).
      by apply elem_of_nil in Hin.
Qed.


End NormalizerFacts.

(** ** Running computations *)

Section Run.
Context {A B : Type}.

Lemma bind_run (m : M A) (k : A → M B) s :
  (m ≫= k) s =
  match m s with
  | (inr a, s') => k a s'
  | (inl e, s') => (inl e, s')
  end.
Proof. reflexivity. Qed.

Lemma bind_returns (m : M A) (k : A → M B) s a s' :
  m s = (inr a, s') → (m ≫= k) s = k a s'.
Proof. intros H. by rewrite bind_run, H. Qed.

Lemma bind_raises (m : M A) (k : A → M B) s e s' :
  m s = (inl e, s') → (m ≫= k) s = (inl e, s').
Proof. intros H. by rewrite bind_run, H. Qed.

Lemma ret_run (a : A) s : mret (M := M) a s = (inr a, s).
Proof. reflexivity. Qed.
End Run.

Lemma get_func_eq f o s : funcs s !! f = Some o → get_func f s = (inr o, s).
Proof. unfold get_func. by intros ->. Qed.

Lemma update_func_eq f g o s :
  funcs s !! f = Some o →
  update_func f g s =
  (inr tt, mkState (<[f := g o]> (funcs s)) (modules s) (fixture_log s)).
Proof.
  intros H. unfold update_func. by rewrite (bind_returns _ _ _ _ _ (get_func_eq _ _ _ H)).
Qed.

Lemma pytest_fixture_eq f o s :
  funcs s !! f = Some o →
  pytest_fixture f s =
  (inr f,
   mkState (<[f := set_func_attr "_pytestfixturefunction" VFixtureMarker o]> (funcs s))
     (modules s) (fixture_log s ++ [f])).
Proof.
  intros H. unfold pytest_fixture.
  by rewrite (bind_returns _ _ _ _ _ (update_func_eq _ _ _ _ H)).
Qed.

Lemma hasattr_eq f a o s :
  funcs s !! f = Some o →
  hasattr f a s = (inr (bool_decide (is_Some (func_dict o !! a))), s).
Proof. intros H. unfold hasattr, gets. by rewrite H. Qed.

Lemma module_getattr_eq m d a v s :
  modules s !! m = Some d → d !! a = Some v →
  module_getattr (Some m) a s = (inr v, s).
Proof. intros Hm Ha. unfold module_getattr. rewrite Hm. simpl. by rewrite Ha. Qed.

Lemma module_setattr_eq m d n v s :
  modules s !! m = Some d →
  module_setattr (Some m) n v s =
  (inr tt, mkState (funcs s) (<[m := <[n := v]> d]> (modules s)) (fixture_log s)).
Proof. intros Hm. unfold module_setattr. by rewrite Hm. Qed.

Lemma collect_args_eq m d file f o s :
  modules s !! m = Some d → d !! "__file__" = Some (VStr file) →
  funcs s !! f = Some o →
  (args ← collect_args (Some m) f argnames []; lift (CodeType args)) s =
  (inr (relocated file (func_code o)), s).
Proof.
  intros Hm Hd Hf. unfold argnames.
  cbn [collect_args String.eqb Ascii.eqb Bool.eqb app].
  repeat first
    [ rewrite (bind_returns _ _ _ _ _ (get_func_eq _ _ _ Hf))
    | rewrite (bind_returns _ _ _ _ _ (module_getattr_eq _ _ _ _ _ Hm Hd))
    | rewrite bind_run; cbn [code_getattr lift String.eqb Ascii.eqb Bool.eqb mret M_ret app] ].
  reflexivity.
Qed.

Lemma contribute_to_module_eq m d file n f o s :
  modules s !! m = Some d → d !! "__file__" = Some (VStr file) →
  funcs s !! f = Some o →
  contribute_to_module (Some m) n f s =
  (inr tt,
   mkState (<[f := set_func_code (relocated file (func_code o)) o]> (funcs s))
     (<[m := <[n := VFunc f]> d]> (modules s)) (fixture_log s)).
Proof.
  intros Hm Hd Hf. unfold contribute_to_module.
  pose proof (collect_args_eq _ _ _ _ _ _ Hm Hd Hf) as Hc.
  rewrite bind_run in Hc. rewrite bind_run.
  destruct (collect_args (Some m) f argnames [] s) as [[e|args] s1]; [done |].
  rewrite (bind_returns _ _ _ _ _ Hc).
  rewrite (bind_returns _ _ _ _ _ (update_func_eq _ _ _ _ Hf)).
  by rewrite (module_setattr_eq _ d).
Qed.

Lemma get_caller_module_eq fr rest m s :
  f_module fr = Some m → is_Some (modules s !! m) →
  get_caller_module 2 (steps_frame :: fr :: rest) s = (inr (Some m), s).
Proof.
  intros Hfr Hm. unfold get_caller_module. simpl sys_getframe.
  rewrite bind_run. simpl. unfold inspect_getmodule, gets. rewrite Hfr. simpl.
  by rewrite decide_True.
Qed.

(** Whatever happens, looking for the caller leaves the state alone. *)
Lemma get_caller_module_state depth caller s r s' :
  get_caller_module depth caller s = (r, s') → s' = s.
Proof.
  unfold get_caller_module, sys_getframe.
  destruct ((steps_frame :: caller) !! Z.to_nat depth) as [fr|].
  - rewrite bind_run. simpl. by intros [= _ <-].
  - rewrite bind_run. simpl. by intros [= _ <-].
Qed.

(** ** The store *)

Lemma lookup_snoc {X} (l : list X) x : (l ++ [x]) !! length l = Some x.
Proof. by apply list_lookup_middle. Qed.

Lemma insert_snoc {X} (l : list X) x y : <[length l := y]> (l ++ [x]) = l ++ [y].
Proof. induction l as [|a l IH]; simpl; [done | by rewrite IH]. Qed.

Lemma lookup_snoc_lt {X} (l : list X) x i o :
  l !! i = Some o → (l ++ [x]) !! i = Some o.
Proof. intros H. by apply lookup_app_l_Some. Qed.

Lemma insert_snoc_lt {X} (l : list X) x i y :
  i < length l → <[i := y]> (l ++ [x]) = <[i := y]> l ++ [x].
Proof. intros H. by apply insert_app_l. Qed.

Section DecoratorRuns.
Variable compiled : lambda_site -> code.

Lemma new_lambda_eq site b s :
  new_lambda compiled site b s =
  (inr (length (funcs s)),
   mkState (funcs s ++ [mkFun "<lambda>" (compiled site) ∅ b]) (modules s)
     (fixture_log s)).
Proof. reflexivity. Qed.

(** Allocating a lambda, marking it and contributing it. *)
Lemma install_eq {A} site b m d file name (k : unit → M A) s :
  modules s !! m = Some d → d !! "__file__" = Some (VStr file) →
  (provider ← new_lambda compiled site b;
   provider ← pytest_fixture provider;
   contribute_to_module (Some m) name provider ≫= k) s =
  k tt (mkState (funcs s ++ [provider_obj compiled site file b])
          (<[m := <[name := VFunc (length (funcs s))]> d]> (modules s))
          (fixture_log s ++ [length (funcs s)])).
Proof.
  intros Hm Hd.
  rewrite (bind_returns _ _ _ _ _ (new_lambda_eq _ _ _)).
  erewrite bind_returns by (apply pytest_fixture_eq; apply lookup_snoc).
  erewrite bind_returns.
  2:{ eapply contribute_to_module_eq; simpl; [exact Hm | exact Hd |].
      rewrite insert_snoc. apply lookup_snoc. }
  simpl. by rewrite !insert_snoc.
Qed.

Lemma decorator_step_eq t name caller m d file func o s :
  t ≠ GIVEN → contributes_to s caller m d file → funcs s !! func = Some o →
  decorator compiled t name caller func s =
  (inr func,
   mkState (<[func := set_func_name name o]> (funcs s)
              ++ [provider_obj compiled L119 file (ReturnStepFunc func)])
     (<[m := <[name := VFunc (length (funcs s))]> d]> (modules s))
     (fixture_log s ++ [length (funcs s)])).
Proof.
  intros Ht ([fr [Hfr Hfm]] & Hm & Hd) Hf. unfold decorator.
  rewrite decide_False by done.
  rewrite (bind_returns _ _ _ _ _ (ret_run _ _)).
  rewrite (bind_returns _ _ _ _ _ (update_func_eq _ _ _ _ Hf)).
  destruct caller as [|fr' rest]; [done |]. simpl in Hfr. injection Hfr as ->.
  erewrite bind_returns by (apply get_caller_module_eq; [done | simpl; rewrite Hm; eauto]).
  rewrite (install_eq _ _ m d file) by done.
  rewrite ret_run. simpl. by rewrite length_insert.
Qed.

Lemma decorator_given_tail name caller m d file func fs log s :
  contributes_to s caller m d file →
  (_ ← update_func (length fs) (set_func_name name);
   module ← get_caller_module 2 (steps_frame :: caller);
   provider ← new_lambda compiled L119 (ReturnStepFunc (length fs));
   provider ← pytest_fixture provider;
   contribute_to_module module name provider;;
   mret func)
    (mkState (fs ++ [mkFun "<lambda>" (compiled L113) ∅ (LookupByFuncName func)])
       (modules s) log) =
  (inr func, given_state compiled fs m d file name func log s).
Proof.
  intros ([fr [Hfr Hfm]] & Hm & Hd).
  erewrite bind_returns by (apply update_func_eq; apply lookup_snoc).
  destruct caller as [|fr' rest]; [done |]. simpl in Hfr. injection Hfr as ->.
  erewrite bind_returns by (apply get_caller_module_eq; [done | simpl; rewrite Hm; eauto]).
  rewrite (install_eq _ _ m d file) by done.
  rewrite ret_run. simpl. rewrite !insert_snoc, !length_app. simpl.
  unfold given_state, trampoline_obj, set_func_name. simpl.
  by rewrite Nat.add_1_r.
Qed.

Lemma decorator_given_marked_eq name caller m d file func o s :
  contributes_to s caller m d file → funcs s !! func = Some o → marked o →
  decorator compiled GIVEN name caller func s =
  (inr func, given_state compiled (funcs s) m d file name func (fixture_log s) s).
Proof.
  intros Hc Hf Hmk. unfold decorator.
  rewrite decide_True by done.
  rewrite bind_run, (bind_returns _ _ _ _ _ (hasattr_eq _ _ _ _ Hf)).
  rewrite bool_decide_eq_true_2 by exact Hmk. simpl negb. cbv iota.
  rewrite (bind_returns _ _ _ _ _ (ret_run _ _)).
  rewrite (bind_returns _ _ _ _ _ (new_lambda_eq _ _ _)), ret_run.
  by apply decorator_given_tail.
Qed.

Lemma decorator_given_unmarked_eq name caller m d file func o s :
  contributes_to s caller m d file → funcs s !! func = Some o → ¬ marked o →
  decorator compiled GIVEN name caller func s =
  (inr func,
   given_state compiled
     (<[func := set_func_attr "_pytestfixturefunction" VFixtureMarker o]> (funcs s))
     m d file name func (fixture_log s ++ [func]) s).
Proof.
  intros Hc Hf Hmk. unfold decorator.
  rewrite decide_True by done.
  rewrite bind_run, (bind_returns _ _ _ _ _ (hasattr_eq _ _ _ _ Hf)).
  rewrite bool_decide_eq_false_2 by exact Hmk. simpl negb. cbv iota.
  rewrite (bind_returns _ _ _ _ _ (pytest_fixture_eq _ _ _ Hf)).
  rewrite (bind_returns _ _ _ _ _ (new_lambda_eq _ _ _)), ret_run.
  by apply (decorator_given_tail name caller m d file func _ _ s).
Qed.
End DecoratorRuns.

(** ** What a run leaves alone, whatever its outcome *)

Lemma bind_inr_inv {A B} (m : M A) (k : A → M B) s b s' :
  (m ≫= k) s = (inr b, s') →
  ∃ a s1, m s = (inr a, s1) ∧ k a s1 = (inr b, s').
Proof.
  rewrite bind_run. destruct (m s) as [[e|a] s1]; [done |]. eauto.
Qed.

Lemma module_getattr_state module a s r s' :
  module_getattr module a s = (r, s') → s' = s.
Proof.
  unfold module_getattr, raise. destruct module as [m|]; [| by intros [= _ <-]].
  destruct (modules s !! m ≫= _); by intros [= _ <-].
Qed.

Lemma get_func_state f s r s' : get_func f s = (r, s') → s' = s.
Proof. unfold get_func. destruct (funcs s !! f); by intros [= _ <-]. Qed.

Lemma collect_args_state module func names args s r s' :
  collect_args module func names args s = (r, s') → s' = s.
Proof.
  revert args. induction names as [|arg names IH]; intros args; simpl.
  - by intros [= _ <-].
  - destruct (String.eqb arg "co_filename").
    + rewrite bind_run.
      destruct (module_getattr module "__file__" s) as [[e|v] s1] eqn:E;
        apply module_getattr_state in E; subst s1; [by intros [= _ <-] | apply IH].
    + rewrite bind_run.
      destruct (get_func func s) as [[e|o] s1] eqn:E;
        apply get_func_state in E; subst s1; [by intros [= _ <-] |].
      rewrite bind_run. unfold lift at 1.
      destruct (code_getattr (func_code o) arg); [by intros [= _ <-] | apply IH].
Qed.

Lemma contribute_to_module_frame module name f s r s' :
  contribute_to_module module name f s = (r, s') →
  fixture_log s' = fixture_log s ∧
  ∀ g, g ≠ f → funcs s' !! g = funcs s !! g.
Proof.
  unfold contribute_to_module. rewrite bind_run.
  destruct (collect_args module f argnames [] s) as [[e|args] s1] eqn:E;
    apply collect_args_state in E; subst s1; [by intros [= _ <-] |].
  rewrite bind_run. unfold lift at 1.
  destruct (CodeType args) as [e|co]; [by intros [= _ <-] |].
  rewrite bind_run. unfold update_func at 1. rewrite bind_run. unfold get_func.
  destruct (funcs s !! f) as [o|]; [| by intros [= _ <-]].
  unfold modify, module_setattr, raise.
  destruct module as [m|]; [destruct (modules _ !! m) as [d|] |];
    simpl; intros [= _ <-]; simpl;
    (split; [done | intros g Hg; by rewrite list_lookup_insert_ne]).
Qed.

Lemma count_occ_snoc_ne (l : list ref) x y :
  x ≠ y → count_occ Nat.eq_dec (l ++ [x]) y = count_occ Nat.eq_dec l y.
Proof.
  intros H. rewrite count_occ_app, count_occ_cons_neq by done.
  simpl. lia.
Qed.

Lemma count_occ_snoc_eq (l : list ref) x :
  count_occ Nat.eq_dec (l ++ [x]) x = S (count_occ Nat.eq_dec l x).
Proof.
  rewrite count_occ_app, count_occ_cons_eq by done. simpl. lia.
Qed.

Section DecoratorFrames.
Variable compiled : lambda_site -> code.

Lemma given_tail_frame name caller func fs mods log r s' :
  func < length fs →
  (_ ← update_func (length fs) (set_func_name name);
   module ← get_caller_module 2 (steps_frame :: caller);
   provider ← new_lambda compiled L119 (ReturnStepFunc (length fs));
   provider ← pytest_fixture provider;
   contribute_to_module module name provider;;
   mret func)
    (mkState (fs ++ [mkFun "<lambda>" (compiled L113) ∅ (LookupByFuncName func)])
       mods log) = (r, s') →
  funcs s' !! func = fs !! func ∧
  count_occ Nat.eq_dec (fixture_log s') func = count_occ Nat.eq_dec log func ∧
  ∀ f, r = inr f → f = func.
Proof.
  intros Hlt.
  erewrite bind_returns by (apply update_func_eq; apply lookup_snoc).
  simpl. rewrite insert_snoc. rewrite bind_run.
  destruct (get_caller_module _ _ _) as [[e|mo] s5] eqn:E;
    apply get_caller_module_state in E; subst s5.
  - intros [= <- <-]. simpl. split; [by apply lookup_app_l | done].
  - rewrite (bind_returns _ _ _ _ _ (new_lambda_eq _ _ _ _)).
    erewrite bind_returns by (apply pytest_fixture_eq; apply lookup_snoc).
    simpl. rewrite insert_snoc, length_app. simpl. rewrite bind_run.
    destruct (contribute_to_module _ _ _ _) as [[e|[]] s8] eqn:E;
      apply contribute_to_module_frame in E as [Hlog Hfr]; simpl in *;
      intros [= <- <-]; rewrite Hlog, Hfr by lia.
    all: (split; [rewrite !lookup_app_l; [done | lia | rewrite length_app; lia] |]);
      (split; [apply count_occ_snoc_ne; lia | congruence]).
Qed.

(** [func] already a provider: it is neither changed nor marked again,
    whether or not the registration goes through. *)
Lemma given_marked_frame name caller func o s r s' :
  funcs s !! func = Some o → marked o →
  decorator compiled GIVEN name caller func s = (r, s') →
  funcs s' !! func = Some o ∧ promotions s' func = promotions s func ∧
  ∀ f, r = inr f → f = func.
Proof.
  intros Hf Hmk. unfold decorator.
  rewrite decide_True by done.
  rewrite bind_run, (bind_returns _ _ _ _ _ (hasattr_eq _ _ _ _ Hf)).
  rewrite bool_decide_eq_true_2 by exact Hmk. simpl negb. cbv iota.
  rewrite (bind_returns _ _ _ _ _ (ret_run _ _)).
  rewrite (bind_returns _ _ _ _ _ (new_lambda_eq _ _ _ _)), ret_run.
  intros H. apply given_tail_frame in H; [| by eapply lookup_lt_Some].
  unfold promotions. by rewrite <- Hf.
Qed.

(** [func] not yet a provider: it is marked, once. *)
Lemma given_unmarked_frame name caller func o s r s' :
  funcs s !! func = Some o → ¬ marked o →
  decorator compiled GIVEN name caller func s = (r, s') →
  funcs s' !! func =
    Some (set_func_attr "_pytestfixturefunction" VFixtureMarker o) ∧
  promotions s' func = S (promotions s func) ∧
  ∀ f, r = inr f → f = func.
Proof.
  intros Hf Hmk. unfold decorator.
  rewrite decide_True by done.
  rewrite bind_run, (bind_returns _ _ _ _ _ (hasattr_eq _ _ _ _ Hf)).
  rewrite bool_decide_eq_false_2 by exact Hmk. simpl negb. cbv iota.
  rewrite (bind_returns _ _ _ _ _ (pytest_fixture_eq _ _ _ Hf)).
  rewrite (bind_returns _ _ _ _ _ (new_lambda_eq _ _ _ _)), ret_run.
  pose proof (lookup_lt_Some _ _ _ Hf) as Hlt.
  cbn [funcs modules fixture_log]. intros H.
  apply given_tail_frame in H; [| by rewrite length_insert].
  unfold promotions. destruct H as (H1 & H2 & H3).
  rewrite H1, H2. simpl. rewrite count_occ_snoc_eq.
  by rewrite list_lookup_insert_eq.
Qed.
End DecoratorFrames.

(** ** The alias form and calls *)

Section AliasAndCalls.
Variable compiled : lambda_site -> code.
Variable authored : nat -> list value -> M value.

Lemma given_alias_eq phrase fixture caller m d file s :
  contributes_to s caller m d file →
  given compiled phrase (Some fixture) caller s =
  (inr NotAFixtureDecorator,
   mkState
     (funcs s ++ [provider_obj compiled L61_outer file (AliasProvider fixture)])
     (<[m := <[remove_prefix phrase := VFunc (length (funcs s))]> d]> (modules s))
     (fixture_log s ++ [length (funcs s)])).
Proof.
  intros ([fr [Hfr Hfm]] & Hm & Hd). unfold given.
  destruct caller as [|fr' rest]; [done |]. simpl in Hfr. injection Hfr as ->.
  erewrite bind_returns by (apply get_caller_module_eq; [done | rewrite Hm; eauto]).
  by rewrite (install_eq _ _ _ m d file).
Qed.

(** Without a fixture name [given] only builds the decorator; the phrase
    goes through the normalizer a second time in [_step_decorator]. *)
Lemma given_plain_eq name caller s :
  given compiled name None caller s =
  (inr (StepDecorator GIVEN (remove_prefix (remove_prefix name))), s).
Proof. reflexivity. Qed.





End AliasAndCalls.

(** ** What a registration leaves behind *)

Lemma lookup_snoc_at {X} (l : list X) x n :
  n = length l → (l ++ [x]) !! n = Some x.
Proof. intros ->. apply lookup_snoc. Qed.

Lemma module_attr_insert s m name v d fs log :
  module_attr (mkState fs (<[m := <[name := v]> d]> (modules s)) log) m name
  = Some v.
Proof. unfold module_attr. simpl. rewrite lookup_insert_eq. simpl. apply lookup_insert_eq. Qed.

Lemma marked_provider_obj compiled site file b :
  marked (provider_obj compiled site file b).
Proof. unfold marked, provider_obj. simpl. rewrite lookup_insert_eq. eauto. Qed.


Section Registration.
Variable compiled : lambda_site -> code.

Lemma decorator_post t name caller m d file func o s :
  contributes_to s caller m d file → funcs s !! func = Some o →
  ∃ s' provider step_func,
    decorator compiled t name caller func s = (inr func, s') ∧
    installed_as s' m name t func provider step_func ∧
    funcs s !! provider = None ∧
    (t = GIVEN → funcs s !! step_func = None) ∧
    modules s' = <[m := <[name := VFunc provider]> d]> (modules s) ∧
    funcs s' !! func = Some (registered_obj t name o) ∧
    (∀ g og, g ≠ func → funcs s !! g = Some og → funcs s' !! g = Some og).
Proof.
  intros Hc Hf. pose proof (lookup_lt_Some _ _ _ Hf) as Hlt.
  destruct (decide (t = GIVEN)) as [-> | Ht].
  - set (fs := if decide (marked o) then funcs s
               else <[func := set_func_attr "_pytestfixturefunction"
                                VFixtureMarker o]> (funcs s)).
    set (log := if decide (marked o) then fixture_log s
                else fixture_log s ++ [func]).
    assert (decorator compiled GIVEN name caller func s =
            (inr func, given_state compiled fs m d file name func log s)) as ->.
    { subst fs log. destruct (decide (marked o)).
      - by eapply decorator_given_marked_eq.
      - by eapply decorator_given_unmarked_eq. }
    assert (length fs = length (funcs s)) as Hlen.
    { subst fs. destruct (decide (marked o)); [done | apply length_insert]. }
    assert (fs !! func = Some (registered_obj GIVEN name o)) as Hfunc.
    { subst fs. simpl. destruct (decide (marked o)); [done |].
      by apply list_lookup_insert_eq. }
    assert (∀ g og, g ≠ func → funcs s !! g = Some og → fs !! g = Some og) as Hoth.
    { subst fs. intros g og Hg Hgo. destruct (decide (marked o)); [done |].
      by rewrite list_lookup_insert_ne. }
    eexists _, (S (length fs)), (length fs). split; [done |].
    unfold given_state. cbn [funcs modules fixture_log].
    split; [| split; [| split; [| split; [done | split]]]].
    + exists (provider_obj compiled L119 file (ReturnStepFunc (length fs))).
      cbn [funcs]. split; [apply module_attr_insert |].
      split; [apply lookup_snoc_at; rewrite length_app; simpl; lia |].
      split; [apply marked_provider_obj |]. split; [done |].
      exists (trampoline_obj compiled name func).
      split; [| done]. apply lookup_snoc_lt, lookup_snoc.
    + apply lookup_ge_None. lia.
    + intros _. apply lookup_ge_None. lia.
    + by apply lookup_snoc_lt, lookup_snoc_lt.
    + intros g og Hg Hgo. apply lookup_snoc_lt, lookup_snoc_lt. by apply Hoth.
  - rewrite (decorator_step_eq compiled t name caller m d file func o s) by done.
    eexists _, (length (funcs s)), func. split; [done |].
    cbn [funcs modules fixture_log].
    split; [| split; [| split; [done | split; [done | split]]]].
    + exists (provider_obj compiled L119 file (ReturnStepFunc func)).
      cbn [funcs]. split; [apply module_attr_insert |].
      split; [apply lookup_snoc_at; by rewrite length_insert |].
      split; [apply marked_provider_obj |]. split; [done |].
      by destruct t.
    + by apply lookup_ge_None.
    + apply lookup_snoc_lt. rewrite list_lookup_insert_eq by done.
      by destruct t.
    + intros g og Hg Hgo. apply lookup_snoc_lt.
      by rewrite list_lookup_insert_ne.
Qed.

End Registration.

(** * The step registrar, claim by claim *)

Section Registrar.
Variable compiled : lambda_site -> code.
Variable authored : nat -> list value -> M value.



(** C3: whatever [given] returns when a fixture name is passed raises
    [StepError] on any function, and leaves the state as it was. *)
Theorem given_alias_result_raises phrase name caller s d s' :
  given compiled phrase (Some name) caller s = (inr d, s') →
  ∀ func caller' s1,
    apply_decorator compiled d caller' func s1 =
    (inl (StepError "Cannot be used as a decorator when the fixture is specified"),
     s1).
Proof.
  unfold given.
  intros (module & s2 & _ & H)%bind_inr_inv.
  apply bind_inr_inv in H as (f & s3 & _ & H).
  apply bind_inr_inv in H as (p & s4 & _ & H).
  apply bind_inr_inv in H as ([] & s5 & _ & H).
  injection H as <- _. done.
Qed.





End Registrar.

(** ** Stacked registrations *)

Lemma marked_set_func_attr v o :
  marked (set_func_attr "_pytestfixturefunction" v o).
Proof. unfold marked. simpl. rewrite lookup_insert_eq. eauto. Qed.

Section Stacked.
Variable compiled : lambda_site -> code.

(** A step decorator that returns at all returns its argument. *)
Lemma decorator_returns_argument t name caller func s f s' :
  decorator compiled t name caller func s = (inr f, s') → f = func.
Proof.
  destruct (decide (t = GIVEN)) as [-> | Ht].
  - destruct (funcs s !! func) as [o|] eqn:Hf.
    + destruct (decide (marked o)) as [Hmk | Hmk]; intros H.
      * apply (given_marked_frame compiled _ _ _ _ _ _ _ Hf Hmk) in H
          as (_ & _ & H). by apply H.
      * apply (given_unmarked_frame compiled _ _ _ _ _ _ _ Hf Hmk) in H
          as (_ & _ & H). by apply H.
    + unfold decorator. rewrite decide_True by done.
      rewrite bind_run, bind_run. unfold hasattr at 1, gets. rewrite Hf.
      simpl negb. cbv iota. rewrite bind_run.
      unfold pytest_fixture. rewrite bind_run. unfold update_func.
      rewrite bind_run. unfold get_func. by rewrite Hf.
  - unfold decorator. rewrite decide_False by done.
    rewrite (bind_returns _ _ _ _ _ (ret_run _ _)).
    intros (? & s1 & _ & H)%bind_inr_inv.
    apply bind_inr_inv in H as (? & s2 & _ & H).
    apply bind_inr_inv in H as (? & s3 & _ & H).
    apply bind_inr_inv in H as (? & s4 & _ & H).
    apply bind_inr_inv in H as (? & s5 & _ & H).
    by injection H as <- _.
Qed.

Lemma stacked_given_frame names caller func o s r s' :
  funcs s !! func = Some o →
  stacked compiled (given_decorators names) caller func s = (r, s') →
  (∀ f, r = inr f → f = func) ∧
  if decide (marked o ∨ names = []) then
    funcs s' !! func = Some o ∧ promotions s' func = promotions s func
  else
    funcs s' !! func
      = Some (set_func_attr "_pytestfixturefunction" VFixtureMarker o) ∧
    promotions s' func = S (promotions s func).
Proof.
  revert r s'. induction names as [|n names IH]; intros r s' Hf; simpl.
  - intros [= <- <-]. split; [congruence |].
    rewrite decide_True by auto. done.
  - rewrite bind_run.
    destruct (stacked compiled (given_decorators names) caller func s)
      as [[e|f] s1] eqn:E.
    + intros [= <- <-]. destruct (IH _ _ Hf eq_refl) as [_ IH'].
      split; [done |]. destruct names as [|n' names]; [done |].
      destruct (decide (marked o)) as [Hmk|Hmk].
      * rewrite decide_True in IH' by auto. by rewrite decide_True by auto.
      * rewrite decide_False in IH' by (intros [?|?]; done).
        by rewrite decide_False by (intros [?|?]; done).
    + destruct (IH _ _ Hf eq_refl) as [Hr IH']. rewrite (Hr f eq_refl).
      intros H. destruct (decide (marked o ∨ names = [])) as [Hd|Hd].
      * destruct IH' as [Hf1 Hp1]. destruct (decide (marked o)) as [Hmk|Hmk].
        -- apply (given_marked_frame compiled _ _ _ _ _ _ _ Hf1 Hmk) in H
             as (H1 & H2 & H3).
           rewrite decide_True by auto. split; [done |]. split; congruence.
        -- apply (given_unmarked_frame compiled _ _ _ _ _ _ _ Hf1 Hmk) in H
             as (H1 & H2 & H3).
           rewrite decide_False by (intros [?|?]; done).
           split; [done |]. split; congruence.
      * destruct IH' as [Hf1 Hp1].
        apply (given_marked_frame compiled _ _ _ _ _ _ _ Hf1
                 (marked_set_func_attr _ _)) in H as (H1 & H2 & H3).
        rewrite decide_False by (intros [?|?]; [tauto | done]).
        split; [done |]. split; congruence.
Qed.

(** C6: however many GIVEN registrations are stacked on [func], and
    whether or not they all go through, a function that already carries
    the marker is left exactly as it was and is not marked again, and a
    function that does not is marked exactly once. *)
Theorem given_promotes_once n names caller func o s r s' :
  funcs s !! func = Some o →
  stacked compiled (given_decorators (n :: names)) caller func s = (r, s') →
  (marked o →
   funcs s' !! func = Some o ∧ promotions s' func = promotions s func) ∧
  (¬ marked o →
   funcs s' !! func
     = Some (set_func_attr "_pytestfixturefunction" VFixtureMarker o) ∧
   promotions s' func = S (promotions s func)).
Proof.
  intros Hf H.
  destruct (stacked_given_frame _ _ _ _ _ _ _ Hf H) as [_ Hs].
  split; intros Hmk.
  - by rewrite decide_True in Hs by auto.
  - by rewrite decide_False in Hs by (intros [?|?]; done).
Qed.

(** Stacked step decorators of any kinds hand the original function
    from one to the next. *)
Lemma stacked_returns_argument ds caller func s f s' :
  Forall (fun d => d ≠ NotAFixtureDecorator) ds →
  stacked compiled ds caller func s = (inr f, s') → f = func.
Proof.
  intros Hds. revert f s'. induction Hds as [|d ds Hd _ IH]; intros f s'; simpl.
  - by intros [= <- _].
  - intros (g & s1 & Hg & H)%bind_inr_inv. apply IH in Hg as ->.
    destruct d as [|t name]; [done |]. simpl in H.
    by apply decorator_returns_argument in H.
Qed.
End Stacked.

(** * The statements on the sample session *)

Lemma sample_contributes :
  contributes_to sample_state sample_caller "test_article" sample_dict
    "/tests/test_article.py".
Proof. split; [by exists (mkFrame (Some "test_article")) | by split]. Qed.




Lemma given_alias_result_raises_witness :
  apply_decorator sample_compiled NotAFixtureDecorator sample_caller 0 sample_state
  = (inl (StepError "Cannot be used as a decorator when the fixture is specified"),
     sample_state).
Proof.
  eapply (given_alias_result_raises sample_compiled "I have a beautiful article"
            "article" sample_caller sample_state).
  vm_compute. reflexivity.
Defined.


Lemma given_promotes_once_witness :
  ∃ r s',
    stacked sample_compiled
      (given_decorators ["Given I have an article"; "Given there is an article"])
      sample_caller 0 sample_state = (r, s') ∧
    funcs s' !! 0
      = Some (set_func_attr "_pytestfixturefunction" VFixtureMarker sample_article) ∧
    promotions s' 0 = 1.
Proof.
  eexists _, _. split; [vm_compute; reflexivity |].
  eapply (given_promotes_once sample_compiled "Given I have an article"
            ["Given there is an article"] sample_caller 0 sample_article
            sample_state);
    [reflexivity | vm_compute; reflexivity | vm_compute; by intros [? ?]].
Defined.





(** ** Where the statements of the specification stop short *)




(** * Further properties of [steps.py] *)

(** ** When [contribute_to_module] goes through *)

Lemma module_getattr_inv module a v s s' :
  module_getattr module a s = (inr v, s') →
  ∃ m d, module = Some m ∧ modules s !! m = Some d ∧ d !! a = Some v.
Proof.
  unfold module_getattr, raise. destruct module as [m|]; [| done].
  destruct (modules s !! m) as [d|] eqn:Hm; simpl; [| done].
  destruct (d !! a) as [w|] eqn:Ha; [| done].
  intros [= <- _]. eauto.
Qed.

Lemma collect_args_run module f o v s :
  funcs s !! f = Some o →
  module_getattr module "__file__" s = (inr v, s) →
  collect_args module f argnames [] s =
  (inr [VInt (co_argcount (func_code o)); VInt (co_nlocals (func_code o));
        VInt (co_stacksize (func_code o)); VInt (co_flags (func_code o));
        VStr (co_code (func_code o)); VTuple (co_consts (func_code o));
        VTuple (co_names (func_code o)); VTuple (co_varnames (func_code o));
        v; VStr (co_name (func_code o)); VInt (co_firstlineno (func_code o));
        VStr (co_lnotab (func_code o)); VTuple (co_freevars (func_code o));
        VTuple (co_cellvars (func_code o))], s).
Proof.
  intros Hf Hm. unfold argnames.
  cbn [collect_args String.eqb Ascii.eqb Bool.eqb app].
  repeat first
    [ rewrite (bind_returns _ _ _ _ _ (get_func_eq _ _ _ Hf))
    | rewrite (bind_returns _ _ _ _ _ Hm)
    | rewrite bind_run; cbn [code_getattr lift String.eqb Ascii.eqb Bool.eqb mret M_ret app] ].
  reflexivity.
Qed.

Lemma collect_args_raise module f o e s :
  funcs s !! f = Some o →
  module_getattr module "__file__" s = (inl e, s) →
  collect_args module f argnames [] s = (inl e, s).
Proof.
  intros Hf Hm. unfold argnames.
  cbn [collect_args String.eqb Ascii.eqb Bool.eqb app].
  repeat first
    [ rewrite (bind_returns _ _ _ _ _ (get_func_eq _ _ _ Hf))
    | rewrite (bind_raises _ _ _ _ _ Hm)
    | rewrite bind_run; cbn [code_getattr lift String.eqb Ascii.eqb Bool.eqb mret M_ret app] ].
  reflexivity.
Qed.

(** Either the call raises and leaves the state alone, or everything it
    needs is there. *)
Lemma contribute_to_module_cases module n f s :
  (∃ e, contribute_to_module module n f s = (inl e, s)) ∨
  (∃ m d file o,
     module = Some m ∧ modules s !! m = Some d ∧
     d !! "__file__" = Some (VStr file) ∧ funcs s !! f = Some o).
Proof.
  destruct (funcs s !! f) as [o|] eqn:Hf.
  - destruct (module_getattr module "__file__" s) as [[e|v] s1] eqn:Hm;
      pose proof (module_getattr_state _ _ _ _ _ Hm) as ->.
    + left. exists e. unfold contribute_to_module.
      by rewrite (bind_raises _ _ _ _ _ (collect_args_raise _ _ _ _ _ Hf Hm)).
    + destruct (module_getattr_inv _ _ _ _ _ Hm) as (m & d & -> & Hd & Hfile).
      assert (∀ e, (∀ file, v ≠ VStr file) →
                CodeType
                  [VInt (co_argcount (func_code o)); VInt (co_nlocals (func_code o));
                   VInt (co_stacksize (func_code o)); VInt (co_flags (func_code o));
                   VStr (co_code (func_code o)); VTuple (co_consts (func_code o));
                   VTuple (co_names (func_code o)); VTuple (co_varnames (func_code o));
                   v; VStr (co_name (func_code o)); VInt (co_firstlineno (func_code o));
                   VStr (co_lnotab (func_code o)); VTuple (co_freevars (func_code o));
                   VTuple (co_cellvars (func_code o))] = inl e →
                ∃ e, contribute_to_module (Some m) n f s = (inl e, s)) as Hbad.
      { intros e _ He. exists e. unfold contribute_to_module.
        rewrite (bind_returns _ _ _ _ _ (collect_args_run _ _ _ _ _ Hf Hm)).
        rewrite bind_run. unfold lift at 1. by rewrite He. }
      destruct v; try (left; eapply Hbad; [done | reflexivity]).
      right. by exists m, d, s0, o.
  - left. eexists. unfold contribute_to_module, argnames.
    cbn [collect_args String.eqb Ascii.eqb Bool.eqb].
    rewrite bind_run, bind_run. unfold get_func at 1. by rewrite Hf.
Qed.

(** ** When a registration goes through *)

Lemma contributes_to_modules s s' caller m d file :
  modules s' = modules s →
  contributes_to s caller m d file → contributes_to s' caller m d file.
Proof. intros Hs (Hfr & Hm & Hd). split; [done |]. by rewrite Hs. Qed.

Lemma get_caller_module_inv caller m s s' :
  get_caller_module 2 (steps_frame :: caller) s = (inr (Some m), s') →
  (∃ fr, caller !! 0 = Some fr ∧ f_module fr = Some m) ∧
  is_Some (modules s !! m).
Proof.
  unfold get_caller_module. simpl sys_getframe. rewrite bind_run.
  destruct caller as [|fr rest]; simpl.
  { intros [=]. }
  unfold inspect_getmodule, gets.
  destruct (f_module fr) as [m'|] eqn:Hfm; simpl; [| intros [=]].
  destruct (decide (is_Some (modules s !! m'))); [| intros [=]].
  intros [= <- _]. split; [by exists fr | done].
Qed.

Section RegistrationCases.
Variable compiled : lambda_site -> code.

(** What follows the renaming in [decorator], and the whole of the
    alias form: find the caller's module, build the provider, mark it,
    contribute it.  Either the caller contributes to a module, or the run
    raises with the module tables and every existing function object as
    they were. *)
Lemma install_cases {A} site b name caller (k : unit → M A) s :
  (∃ m d file, contributes_to s caller m d file) ∨
  (¬ (∃ m d file, contributes_to s caller m d file) ∧
   ∃ e s',
     (module ← get_caller_module 2 (steps_frame :: caller);
      provider ← new_lambda compiled site b;
      provider ← pytest_fixture provider;
      contribute_to_module module name provider ≫= k) s = (inl e, s') ∧
     modules s' = modules s ∧
     ∀ g og, funcs s !! g = Some og → funcs s' !! g = Some og).
Proof.
  destruct (get_caller_module 2 (steps_frame :: caller) s) as [[e|mo] s1] eqn:Hg;
    pose proof (get_caller_module_state _ _ _ _ _ Hg) as ->.
  - right. split.
    + intros (m & d & file & ([fr [Hfr Hfm]] & Hm & Hd)).
      destruct caller as [|fr' rest]; [done |]. simpl in Hfr. injection Hfr as ->.
      rewrite (get_caller_module_eq fr rest m s) in Hg; [done | done |].
      rewrite Hm. eauto.
    + exists e, s. by rewrite (bind_raises _ _ _ _ _ Hg).
  - rewrite (bind_returns _ _ _ _ _ Hg).
    rewrite (bind_returns _ _ _ _ _ (new_lambda_eq _ _ _ _)).
    erewrite bind_returns by (apply pytest_fixture_eq; apply lookup_snoc).
    cbn [funcs modules fixture_log]. rewrite insert_snoc.
    match goal with
    | |- context [contribute_to_module mo name ?p ≫= k] =>
        destruct (contribute_to_module_cases mo name p
                    (mkState
                       (funcs s ++
                          [set_func_attr "_pytestfixturefunction" VFixtureMarker
                             (mkFun "<lambda>" (compiled site) ∅ b)])
                       (modules s) (fixture_log s ++ [length (funcs s)])))
          as [[e He] | (m & d & file & o & -> & Hm & Hd & _)]
    end.
    + right. split.
      * intros (m & d & file & ([fr [Hfr Hfm]] & Hm & Hd)).
        destruct caller as [|fr' rest]; [done |]. simpl in Hfr. injection Hfr as ->.
        rewrite (get_caller_module_eq fr rest m s) in Hg; [| done | rewrite Hm; eauto].
        injection Hg as <-.
        erewrite (contribute_to_module_eq m d file) in He;
          [done | done | done | apply lookup_snoc].
      * eexists e, _. rewrite (bind_raises _ _ _ _ _ He).
        split; [done |]. split; [done |].
        intros g og Hgo. by apply lookup_snoc_lt.
    + left. exists m, d, file. simpl in Hm.
      destruct (get_caller_module_inv _ _ _ _ Hg) as [Hfr _]. by split.
Qed.
End RegistrationCases.

Section RegistrationFailures.
Variable compiled : lambda_site -> code.

Lemma decorator_dangling t name caller func s :
  funcs s !! func = None →
  ∃ e, decorator compiled t name caller func s = (inl e, s).
Proof.
  intros Hf. destruct (decide (t = GIVEN)) as [-> | Ht]; unfold decorator.
  - rewrite decide_True by done.
    rewrite bind_run, bind_run. unfold hasattr at 1, gets. rewrite Hf.
    simpl negb. cbv iota. rewrite bind_run.
    unfold pytest_fixture. rewrite bind_run. unfold update_func.
    rewrite bind_run. unfold get_func. rewrite Hf. eauto.
  - rewrite decide_False by done.
    rewrite (bind_returns _ _ _ _ _ (ret_run _ _)).
    rewrite bind_run. unfold update_func. rewrite bind_run.
    unfold get_func. rewrite Hf. eauto.
Qed.

Lemma given_tail_fails name caller func fs mods log :
  ¬ (∃ m d file, contributes_to (mkState fs mods log) caller m d file) →
  ∃ e s',
    (_ ← update_func (length fs) (set_func_name name);
     module ← get_caller_module 2 (steps_frame :: caller);
     provider ← new_lambda compiled L119 (ReturnStepFunc (length fs));
     provider ← pytest_fixture provider;
     contribute_to_module module name provider;;
     mret func)
      (mkState (fs ++ [mkFun "<lambda>" (compiled L113) ∅ (LookupByFuncName func)])
         mods log) = (inl e, s') ∧
    modules s' = mods ∧
    ∀ g og, fs !! g = Some og → funcs s' !! g = Some og.
Proof.
  intros Hno.
  erewrite bind_returns by (apply update_func_eq; apply lookup_snoc).
  cbn [funcs modules fixture_log]. rewrite insert_snoc.
  match goal with
  | |- context [_ ?s4 = _] =>
      destruct (install_cases compiled L119 (ReturnStepFunc (length fs)) name
                  caller (fun _ => mret func) s4)
        as [(m & d & file & Hc) | (_ & e & s' & Hrun & Hmods & Hfuncs)]
  end.
  - destruct Hno. exists m, d, file.
    by eapply contributes_to_modules; [| exact Hc].
  - exists e, s'. split; [exact Hrun |]. split; [done |].
    intros g og Hgo. by apply Hfuncs, lookup_snoc_lt.
Qed.

(** A registration whose caller contributes to no module raises, after
    the decorated function has been renamed or promoted. *)
Lemma decorator_fails t name caller func o s :
  funcs s !! func = Some o →
  ¬ (∃ m d file, contributes_to s caller m d file) →
  ∃ e s',
    decorator compiled t name caller func s = (inl e, s') ∧
    modules s' = modules s ∧
    funcs s' !! func = Some (registered_obj t name o) ∧
    ∀ g og, g ≠ func → funcs s !! g = Some og → funcs s' !! g = Some og.
Proof.
  intros Hf Hno. pose proof (lookup_lt_Some _ _ _ Hf) as Hlt.
  destruct (decide (t = GIVEN)) as [-> | Ht]; unfold decorator.
  - rewrite decide_True by done.
    rewrite bind_run, (bind_returns _ _ _ _ _ (hasattr_eq _ _ _ _ Hf)).
    simpl registered_obj. destruct (decide (marked o)) as [Hmk|Hmk].
    + rewrite bool_decide_eq_true_2 by exact Hmk. simpl negb. cbv iota.
      rewrite (bind_returns _ _ _ _ _ (ret_run _ _)).
      rewrite (bind_returns _ _ _ _ _ (new_lambda_eq _ _ _ _)), ret_run.
      destruct (given_tail_fails name caller func (funcs s) (modules s)
                  (fixture_log s)) as (e & s' & Hrun & Hmods & Hfuncs).
      { intros (m & d & file & Hc). apply Hno. exists m, d, file.
        by eapply contributes_to_modules; [| exact Hc]. }
      exists e, s'. split; [exact Hrun |]. split; [done |].
      split; [by apply Hfuncs |]. intros g og _ Hgo. by apply Hfuncs.
    + rewrite bool_decide_eq_false_2 by exact Hmk. simpl negb. cbv iota.
      rewrite (bind_returns _ _ _ _ _ (pytest_fixture_eq _ _ _ Hf)).
      rewrite (bind_returns _ _ _ _ _ (new_lambda_eq _ _ _ _)), ret_run.
      cbn [funcs modules fixture_log].
      destruct (given_tail_fails name caller func
                  (<[func := set_func_attr "_pytestfixturefunction"
                               VFixtureMarker o]> (funcs s))
                  (modules s) (fixture_log s ++ [func]))
        as (e & s' & Hrun & Hmods & Hfuncs).
      { intros (m & d & file & Hc). apply Hno. exists m, d, file.
        by eapply contributes_to_modules; [| exact Hc]. }
      exists e, s'. split; [exact Hrun |]. split; [done |].
      split; [by apply Hfuncs, list_lookup_insert_eq |].
      intros g og Hg Hgo. apply Hfuncs. by rewrite list_lookup_insert_ne.
  - rewrite decide_False by done.
    rewrite (bind_returns _ _ _ _ _ (ret_run _ _)).
    rewrite (bind_returns _ _ _ _ _ (update_func_eq _ _ _ _ Hf)).
    match goal with
    | |- context [_ ?s4 = _] =>
        destruct (install_cases compiled L119 (ReturnStepFunc func) name
                    caller (fun _ => mret func) s4)
          as [(m & d & file & Hc) | (_ & e & s' & Hrun & Hmods & Hfuncs)]
    end.
    + destruct Hno. exists m, d, file.
      by eapply contributes_to_modules; [| exact Hc].
    + exists e, s'. split; [exact Hrun |]. split; [done |]. split.
      * apply Hfuncs. cbn [funcs]. rewrite list_lookup_insert_eq by done.
        by destruct t.
      * intros g og Hg Hgo. apply Hfuncs. cbn [funcs].
        by rewrite list_lookup_insert_ne.
Qed.
End RegistrationFailures.

(** ** [contribute_to_module], beyond the happy path *)



(** X3: a call that returns has touched the code object of [f] and the one
    attribute, nothing else: not the name, attributes or behaviour of [f],
    no other function, no other attribute, no other module, and not the
    trace of [pytest.fixture]. *)
Theorem contribute_to_module_touches_only m n f o s s' :
  funcs s !! f = Some o →
  contribute_to_module (Some m) n f s = (inr tt, s') →
  (∃ o', funcs s' !! f = Some o' ∧ func_name o' = func_name o ∧
         func_dict o' = func_dict o ∧ func_body o' = func_body o) ∧
  length (funcs s') = length (funcs s) ∧
  (∀ g, g ≠ f → funcs s' !! g = funcs s !! g) ∧
  (∀ n', n' ≠ n → module_attr s' m n' = module_attr s m n') ∧
  (∀ m', m' ≠ m → modules s' !! m' = modules s !! m') ∧
  fixture_log s' = fixture_log s.
Proof.
  intros Hf Hrun.
  destruct (contribute_to_module_cases (Some m) n f s)
    as [[e' He] | (m0 & d & file & o0 & [= <-] & Hm & Hd & Hf0)].
  { rewrite He in Hrun. discriminate Hrun. }
  rewrite (contribute_to_module_eq _ _ _ _ _ _ _ Hm Hd Hf) in Hrun.
  injection Hrun as <-. cbn [funcs modules fixture_log].
  split.
  { eexists. split; [apply list_lookup_insert_eq; by eapply lookup_lt_Some |]. done. }
  split; [apply length_insert |].
  split; [intros g Hg; by apply list_lookup_insert_ne |].
  split.
  { intros n' Hn'. unfold module_attr. cbn [modules].
    rewrite lookup_insert_eq, Hm. simpl. by rewrite lookup_insert_ne. }
  split; [intros m' Hm'; by rewrite lookup_insert_ne | done].
Qed.


(** X5: contributing under the name [__file__] replaces the module's file
    name by a function, and from then on every contribution to that module
    raises [TypeError] and changes nothing. *)
Theorem contribute_to_module_file_clobbered m d file f o s :
  modules s !! m = Some d → d !! "__file__" = Some (VStr file) →
  funcs s !! f = Some o →
  ∃ s1,
    contribute_to_module (Some m) "__file__" f s = (inr tt, s1) ∧
    module_attr s1 m "__file__" = Some (VFunc f) ∧
    ∀ n g og, funcs s1 !! g = Some og →
      contribute_to_module (Some m) n g s1
      = (inl (TypeError "code() argument mismatch"), s1).
Proof.
  intros Hm Hd Hf. eexists.
  split; [by apply contribute_to_module_eq |].
  split; [apply module_attr_insert |].
  intros n g og Hg. unfold contribute_to_module.
  erewrite bind_returns.
  2:{ eapply collect_args_run; [exact Hg |].
      eapply module_getattr_eq; cbn [modules]; apply lookup_insert_eq. }
  by rewrite bind_run.
Qed.

(** ** Step registration, beyond the happy path *)

Section RegistrationOutcomes.
Variable compiled : lambda_site -> code.


(** X7: a registration that raises installs nothing: the module tables
    are as before, and so is every function object other than the
    decorated one. *)
Theorem failed_registration_installs_nothing t name caller func s e s' :
  decorator compiled t name caller func s = (inl e, s') →
  modules s' = modules s ∧
  ∀ g og, g ≠ func → funcs s !! g = Some og → funcs s' !! g = Some og.
Proof.
  intros Hrun. destruct (funcs s !! func) as [o|] eqn:Hf.
  - destruct (install_cases compiled L119 (ReturnStepFunc func) name caller
                (fun _ => mret func) s)
      as [(m & d & file & Hc) | [Hno _]].
    + destruct (decorator_post compiled t name _ _ _ _ _ _ _ Hc Hf)
        as (s1 & p & sf & Hok & _).
      rewrite Hok in Hrun. discriminate Hrun.
    + destruct (decorator_fails compiled t name caller func o s Hf Hno)
        as (e1 & s1 & He & Hmods & _ & Hoth).
      rewrite He in Hrun. by injection Hrun as _ <-.
  - destruct (decorator_dangling compiled t name caller func s Hf) as [e1 He].
    rewrite He in Hrun. by injection Hrun as _ <-.
Qed.

(** X8: but it is not undone: by the time the registration of a function
    raises, WHEN and THEN have renamed the function and GIVEN has marked
    it as a provider. *)
Theorem failed_registration_keeps_side_effect t name caller func o s e s' :
  funcs s !! func = Some o →
  decorator compiled t name caller func s = (inl e, s') →
  funcs s' !! func = Some (registered_obj t name o).
Proof.
  intros Hf Hrun.
  destruct (install_cases compiled L119 (ReturnStepFunc func) name caller
              (fun _ => mret func) s)
    as [(m & d & file & Hc) | [Hno _]].
  - destruct (decorator_post compiled t name _ _ _ _ _ _ _ Hc Hf)
      as (s1 & p & sf & Hok & _).
    rewrite Hok in Hrun. discriminate Hrun.
  - destruct (decorator_fails compiled t name caller func o s Hf Hno)
      as (e1 & s1 & He & _ & Hfunc & _).
    rewrite He in Hrun. by injection Hrun as _ <-.
Qed.

(** X9: a registration that returns has touched the decorated function,
    one attribute of the caller's module and the objects it allocated:
    every other function object, every other attribute of the module
    and every other module are as before. *)
Theorem registration_touches_only t name caller m d file func o s s' :
  contributes_to s caller m d file → funcs s !! func = Some o →
  decorator compiled t name caller func s = (inr func, s') →
  (∀ g og, g ≠ func → funcs s !! g = Some og → funcs s' !! g = Some og) ∧
  (∀ n', n' ≠ name → module_attr s' m n' = module_attr s m n') ∧
  (∀ m', m' ≠ m → modules s' !! m' = modules s !! m').
Proof.
  intros Hc Hf Hrun.
  destruct (decorator_post compiled t name _ _ _ _ _ _ _ Hc Hf)
    as (s1 & p & sf & Hok & _ & _ & _ & Hmods & _ & Hoth).
  rewrite Hok in Hrun. injection Hrun as <-.
  split; [done |]. destruct Hc as (_ & Hm & _). split.
  - intros n' Hn'. unfold module_attr. rewrite Hmods, lookup_insert_eq, Hm.
    simpl. by rewrite lookup_insert_ne.
  - intros m' Hm'. by rewrite Hmods, lookup_insert_ne.
Qed.
End RegistrationOutcomes.

(** ** Registrations side by side *)



Section SideBySide.
Variable compiled : lambda_site -> code.
Variable authored : nat -> list value -> M value.



End SideBySide.

(** ** Which errors a registration can raise *)

Lemma no_step_error_ret {A} (a : A) : no_step_error (mret a).
Proof. intros s e s' [=]. Qed.

Lemma no_step_error_bind {A B} (m : M A) (k : A → M B) :
  no_step_error m → (∀ a, no_step_error (k a)) → no_step_error (m ≫= k).
Proof.
  intros Hm Hk s e s'. rewrite bind_run.
  destruct (m s) as [[e1|a] s1] eqn:E.
  - intros [= <- <-]. by eapply Hm.
  - by apply Hk.
Qed.

Lemma no_step_error_lift {A} (r : exn + A) :
  (∀ e, r = inl e → ∀ msg, e ≠ StepError msg) → no_step_error (lift r).
Proof. intros Hr s e s' [= -> _]. by apply Hr. Qed.

Lemma no_step_error_gets {A} (f : state → A) : no_step_error (gets f).
Proof. intros s e s' [=]. Qed.

Lemma no_step_error_modify f : no_step_error (modify f).
Proof. intros s e s' [=]. Qed.

Lemma no_step_error_get_func f : no_step_error (get_func f).
Proof.
  intros s e s'. unfold get_func. destruct (funcs s !! f); intros [= <- _]; done.
Qed.

Lemma no_step_error_update_func f g : no_step_error (update_func f g).
Proof.
  apply no_step_error_bind; [apply no_step_error_get_func |].
  intros o. apply no_step_error_modify.
Qed.

Lemma no_step_error_pytest_fixture f : no_step_error (pytest_fixture f).
Proof.
  apply no_step_error_bind; [apply no_step_error_update_func |].
  intros _. apply no_step_error_bind; [apply no_step_error_modify |].
  intros _. apply no_step_error_ret.
Qed.

Lemma no_step_error_alloc o : no_step_error (alloc o).
Proof. intros s e s' [=]. Qed.

Lemma no_step_error_get_caller_module depth caller :
  no_step_error (get_caller_module depth caller).
Proof.
  apply no_step_error_bind.
  - intros s e s'. unfold sys_getframe, raise.
    destruct (_ !! _); intros [= <- _]; done.
  - intros fr. apply no_step_error_gets.
Qed.

Lemma no_step_error_module_getattr module a :
  no_step_error (module_getattr module a).
Proof.
  intros s e s'. unfold module_getattr, raise.
  destruct module as [m|]; [| by intros [= <- _]].
  destruct (modules s !! m ≫= _); intros [= <- _]; done.
Qed.

Lemma no_step_error_module_setattr module n v :
  no_step_error (module_setattr module n v).
Proof.
  intros s e s'. unfold module_setattr, raise.
  destruct module as [m|]; [| by intros [= <- _]].
  destruct (modules s !! m); intros [= <- _]; done.
Qed.

Lemma code_getattr_error co arg e :
  code_getattr co arg = inl e → ∀ msg, e ≠ StepError msg.
Proof.
  unfold code_getattr. repeat case_match; intros [= <-]; done.
Qed.

Lemma CodeType_error args e :
  CodeType args = inl e → e = TypeError "code() argument mismatch".
Proof.
  unfold CodeType. repeat case_match; congruence.
Qed.

Lemma no_step_error_collect_args module func names args :
  no_step_error (collect_args module func names args).
Proof.
  revert args. induction names as [|arg names IH]; intros args; simpl.
  - apply no_step_error_ret.
  - destruct (String.eqb arg "co_filename").
    + apply no_step_error_bind; [apply no_step_error_module_getattr | auto].
    + apply no_step_error_bind; [apply no_step_error_get_func |].
      intros o. apply no_step_error_bind; [| auto].
      apply no_step_error_lift, code_getattr_error.
Qed.

Lemma no_step_error_contribute_to_module module n f :
  no_step_error (contribute_to_module module n f).
Proof.
  apply no_step_error_bind; [apply no_step_error_collect_args |].
  intros args. apply no_step_error_bind.
  { apply no_step_error_lift. intros e He msg. by rewrite (CodeType_error _ _ He). }
  intros co. apply no_step_error_bind; [apply no_step_error_update_func |].
  intros _. apply no_step_error_module_setattr.
Qed.

Section ErrorKinds.
Variable compiled : lambda_site -> code.

(** X13: the step decorator never raises [StepError]: whatever a
    misplaced or malformed registration raises is another error. *)
Theorem decorator_never_step_error t name caller func s e s' :
  decorator compiled t name caller func s = (inl e, s') →
  ∀ msg, e ≠ StepError msg.
Proof.
  revert s e s'. change (no_step_error (decorator compiled t name caller func)).
  unfold decorator. apply no_step_error_bind.
  - destruct (decide (t = GIVEN)); [| apply no_step_error_ret].
    apply no_step_error_bind; [apply no_step_error_gets |].
    intros marked. apply no_step_error_bind.
    + destruct (negb marked);
        [apply no_step_error_pytest_fixture | apply no_step_error_ret].
    + intros f. apply no_step_error_bind; [apply no_step_error_alloc |].
      intros sf. apply no_step_error_ret.
  - intros [f sf]. apply no_step_error_bind; [apply no_step_error_update_func |].
    intros _. apply no_step_error_bind; [apply no_step_error_get_caller_module |].
    intros module. apply no_step_error_bind; [apply no_step_error_alloc |].
    intros p. apply no_step_error_bind; [apply no_step_error_pytest_fixture |].
    intros p'. apply no_step_error_bind; [apply no_step_error_contribute_to_module |].
    intros _. apply no_step_error_ret.
Qed.

(** X14: nor does [given], with or without a fixture name; in this module
    only applying the result of the alias form raises [StepError]. *)
Theorem given_never_step_error name fixture caller s e s' :
  given compiled name fixture caller s = (inl e, s') →
  ∀ msg, e ≠ StepError msg.
Proof.
  revert s e s'. change (no_step_error (given compiled name fixture caller)).
  unfold given. destruct fixture as [fixture|]; [| apply no_step_error_ret].
  apply no_step_error_bind; [apply no_step_error_get_caller_module |].
  intros module. apply no_step_error_bind; [apply no_step_error_alloc |].
  intros p. apply no_step_error_bind; [apply no_step_error_pytest_fixture |].
  intros p'. apply no_step_error_bind; [apply no_step_error_contribute_to_module |].
  intros _. apply no_step_error_ret.
Qed.
End ErrorKinds.

(** ** The caller scope resolver *)



(** ** The alias form, beyond the happy path *)

Section AliasOutcomes.
Variable compiled : lambda_site -> code.


(** X18: whatever its outcome, the alias form changes no function object
    that existed before, and when it raises the module tables are as
    before too. *)
Theorem given_alias_touches_no_function name fixture caller s r s' :
  given compiled name (Some fixture) caller s = (r, s') →
  (∀ g og, funcs s !! g = Some og → funcs s' !! g = Some og) ∧
  (∀ e, r = inl e → modules s' = modules s).
Proof.
  intros Hrun.
  destruct (install_cases compiled L61_outer (AliasProvider fixture)
              (remove_prefix name) caller
              (fun _ => mret NotAFixtureDecorator) s)
    as [(m & d & file & Hc) | (_ & e & s1 & He & Hmods & Hfuncs)].
  - rewrite (given_alias_eq compiled name fixture caller m d file s Hc) in Hrun.
    injection Hrun as <- <-. split; [| done].
    intros g og Hg. cbn [funcs]. by apply lookup_snoc_lt.
  - unfold given in Hrun. rewrite He in Hrun. injection Hrun as <- <-.
    split; [done |]. by intros e' _.
Qed.
End AliasOutcomes.

(** ** One name, whatever the kind *)

Section OneNamespace.
Variable compiled : lambda_site -> code.

End OneNamespace.

(** ** The further statements on the sample session *)


Lemma contribute_to_module_touches_only_witness :
  ∃ s',
    contribute_to_module (Some "test_article") "I have an article" 0 sample_state
      = (inr tt, s') ∧
    funcs s' !! 1 = funcs sample_state !! 1 ∧
    fixture_log s' = [].
Proof.
  eexists. split; [vm_compute; reflexivity |].
  edestruct (contribute_to_module_touches_only "test_article" "I have an article"
               0 sample_article sample_state)
    as (_ & _ & Hoth & _ & _ & Hlog); [reflexivity | vm_compute; reflexivity |].
  split; [apply Hoth; lia | exact Hlog].
Defined.


Lemma contribute_to_module_file_clobbered_witness :
  ∃ s1,
    contribute_to_module (Some "test_article") "__file__" 0 sample_state
      = (inr tt, s1) ∧
    contribute_to_module (Some "test_article") "I have an article" 1 s1
      = (inl (TypeError "code() argument mismatch"), s1).
Proof.
  destruct (contribute_to_module_file_clobbered "test_article" sample_dict
              "/tests/test_article.py" 0 sample_article sample_state
              eq_refl eq_refl eq_refl) as (s1 & Hrun & _ & Hbad).
  exists s1. split; [exact Hrun |].
  eapply (Hbad _ 1). injection Hrun as <-. vm_compute. reflexivity.
Defined.

Lemma failed_registration_installs_nothing_witness :
  ∃ e s',
    decorator sample_compiled WHEN "I go to the article page" sample_orphan_caller
      1 sample_state = (inl e, s') ∧
    modules s' = modules sample_state ∧
    funcs s' !! 0 = Some sample_article.
Proof.
  eexists _, _. split; [vm_compute; reflexivity |].
  edestruct (failed_registration_installs_nothing sample_compiled WHEN
               "I go to the article page" sample_orphan_caller 1 sample_state)
    as [Hmods Hoth]; [vm_compute; reflexivity |].
  split; [exact Hmods | apply Hoth; [lia | reflexivity]].
Defined.

Lemma failed_registration_keeps_side_effect_witness :
  ∃ e s' o',
    decorator sample_compiled WHEN "I go to the article page" sample_orphan_caller
      1 sample_state = (inl e, s') ∧
    funcs s' !! 1 = Some o' ∧ func_name o' = "I go to the article page".
Proof.
  eexists _, _, _. split; [vm_compute; reflexivity |].
  split.
  - eapply (failed_registration_keeps_side_effect sample_compiled WHEN
              "I go to the article page" sample_orphan_caller 1 _ sample_state);
      [reflexivity | vm_compute; reflexivity].
  - reflexivity.
Defined.

Lemma registration_touches_only_witness :
  ∃ s',
    decorator sample_compiled GIVEN "I have an article" sample_caller 0 sample_state
      = (inr 0, s') ∧
    funcs s' !! 1 = funcs sample_state !! 1 ∧
    module_attr s' "test_article" "__file__"
      = Some (VStr "/tests/test_article.py").
Proof.
  destruct (decorator sample_compiled GIVEN "I have an article" sample_caller 0
              sample_state) as [r s'] eqn:Hrun.
  assert (r = inr 0) as ->.
  { pose proof Hrun as Hr. vm_compute in Hr. by injection Hr as <- _. }
  exists s'. split; [reflexivity |].
  destruct (registration_touches_only sample_compiled GIVEN "I have an article"
              sample_caller "test_article" sample_dict "/tests/test_article.py"
              0 sample_article sample_state s' sample_contributes eq_refl Hrun)
    as (Hoth & Hattr & _).
  split; [apply Hoth; [lia | reflexivity] |].
  rewrite Hattr; [reflexivity | discriminate].
Defined.




Lemma decorator_never_step_error_witness :
  ∃ e s',
    decorator sample_compiled THEN "I should see it" [] 0 sample_state
      = (inl e, s') ∧
    ∀ msg, e ≠ StepError msg.
Proof.
  eexists _, _. split; [vm_compute; reflexivity |].
  eapply (decorator_never_step_error sample_compiled THEN "I should see it" [] 0
            sample_state).
  vm_compute. reflexivity.
Defined.

Lemma given_never_step_error_witness :
  ∃ e s',
    given sample_compiled "I have a beautiful article" (Some "article")
      sample_orphan_caller sample_state = (inl e, s') ∧
    ∀ msg, e ≠ StepError msg.
Proof.
  eexists _, _. split; [vm_compute; reflexivity |].
  eapply (given_never_step_error sample_compiled "I have a beautiful article"
            (Some "article") sample_orphan_caller sample_state).
  vm_compute. reflexivity.
Defined.



Lemma given_alias_touches_no_function_witness :
  ∃ r s',
    given sample_compiled "I have a beautiful article" (Some "article")
      sample_caller sample_state = (r, s') ∧
    funcs s' !! 0 = Some sample_article.
Proof.
  eexists _, _. split; [vm_compute; reflexivity |].
  edestruct (given_alias_touches_no_function sample_compiled
               "I have a beautiful article" "article" sample_caller sample_state)
    as [Hfuncs _]; [vm_compute; reflexivity |].
  by apply Hfuncs.
Defined.

